(** * A shallow embedding of [tools/personalization_engine.py]

    The [PersonalizationEngine] class matches a candidate's CV against a
    job analysis.  This file embeds the class's methods and proves what
    its specification says about them.

    Modelling conventions:
    - A Python [str] is a Rocq [string]; each character is read as a
      code point below 256 (Latin-1), on which [str.lower], [str.strip]
      and [str.split] are written out exactly.
    - A Python [float] is an exact rational [Q]; the float rounding of
      [0.4 * x] and the like is not modelled.
    - A Python [dict] produced by the code is an association list in
      insertion order, and indexing it with a missing key raises
      [KeyError].
    - Experience entries are dictionaries that live in a heap (a list of
      dictionaries indexed by their location), because the ranker copies
      them and writes into the copies: the caller's entries are shared
      objects. *)

From Stdlib Require Import String Ascii Bool List Arith Lia ZArith QArith Lqa
  Permutation Sorted.
From Stdlib Require DecimalString.
Import ListNotations.

Local Open Scope string_scope.
Local Open Scope nat_scope.
Local Open Scope list_scope.

Infix "+++" := String.append (at level 60, right associativity).

(** ** Python string primitives *)

Module Py.

(** [str.lower] on code points below 256. *)
Definition lower_char (c : ascii) : ascii :=
  let n := nat_of_ascii c in
  if ((65 <=? n) && (n <=? 90)) || ((192 <=? n) && (n <=? 222) && negb (n =? 215))
  then ascii_of_nat (n + 32) else c.

Definition lower (s : string) : string :=
  string_of_list_ascii (map lower_char (list_ascii_of_string s)).

(** [str.isspace] on code points below 256. *)
Definition is_space (c : ascii) : bool :=
  let n := nat_of_ascii c in
  ((9 <=? n) && (n <=? 13)) || ((28 <=? n) && (n <=? 32)) || (n =? 133) || (n =? 160).

Fixpoint drop_space (l : list ascii) : list ascii :=
  match l with
  | [] => []
  | c :: l' => if is_space c then drop_space l' else l
  end.

(** [str.strip()] *)
Definition strip (s : string) : string :=
  string_of_list_ascii
    (rev (drop_space (rev (drop_space (list_ascii_of_string s))))).

Fixpoint prefixb (p s : string) : bool :=
  match p, s with
  | EmptyString, _ => true
  | String a p', String b s' => Ascii.eqb a b && prefixb p' s'
  | String _ _, EmptyString => false
  end.

(** [needle in hay] on strings. *)
Fixpoint contains (needle hay : string) : bool :=
  prefixb needle hay ||
  match hay with
  | EmptyString => false
  | String _ hay' => contains needle hay'
  end.

Fixpoint split_aux (l : list ascii) (cur : list ascii) : list string :=
  match l with
  | [] => match cur with [] => [] | _ => [string_of_list_ascii (rev cur)] end
  | c :: l' =>
      if is_space c then
        match cur with
        | [] => split_aux l' []
        | _ => string_of_list_ascii (rev cur) :: split_aux l' []
        end
      else split_aux l' (c :: cur)
  end.

(** [str.split()] with no separator. *)
Definition split (s : string) : list string := split_aux (list_ascii_of_string s) [].

(** [set(xs)], as a duplicate-free list. *)
Definition set_of (xs : list string) : list string := nodup string_dec xs.

Definition set_inter (a b : list string) : list string :=
  filter (fun w => existsb (String.eqb w) b) a.

Definition set_union (a b : list string) : list string := nodup string_dec (a ++ b).

(** [sep.join(xs)] *)
Definition join (sep : string) (xs : list string) : string := String.concat sep xs.

(** Python values occurring in the engine's dictionaries. *)
Inductive val :=
| VInt (z : Z)
| VFloat (q : Q)
| VStr (s : string)
| VStrList (l : list string).

Definition dict := list (string * val).

Fixpoint dict_get (d : dict) (k : string) : option val :=
  match d with
  | [] => None
  | (k', v) :: d' => if String.eqb k k' then Some v else dict_get d' k
  end.

(** [d[k] = v] *)
Fixpoint dict_set (d : dict) (k : string) (v : val) : dict :=
  match d with
  | [] => [(k, v)]
  | (k', v') :: d' =>
      if String.eqb k k' then (k, v) :: d' else (k', v') :: dict_set d' k v
  end.

(** [d.get(k, default)] for a string-valued entry. *)
Definition dict_get_str (d : dict) (k default : string) : string :=
  match dict_get d k with
  | Some (VStr s) => s
  | _ => default
  end.

Inductive exn := KeyError (k : string) | TypeError.

Definition res (A : Type) := (exn + A)%type.

Definition ret {A} (a : A) : res A := inr a.
Definition bind {A B} (m : res A) (f : A -> res B) : res B :=
  match m with inl e => inl e | inr a => f a end.

(** [d[k]] *)
Definition getitem (d : dict) (k : string) : res val :=
  match dict_get d k with Some v => inr v | None => inl (KeyError k) end.

(** The number a value stands for, when it is an [int] or a [float]. *)
Definition num (v : val) : option Q :=
  match v with
  | VInt z => Some (inject_Z z)
  | VFloat q => Some q
  | _ => None
  end.

(** [v > c] for a numeric value [v] and a float literal [c]. *)
Definition gt (v : val) (c : Q) : res bool :=
  match num v with
  | Some q => inr (negb (Qle_bool q c))
  | None => inl TypeError
  end.

(** [truthy(s)] for a string. *)
Definition str_truthy (s : string) : bool :=
  match s with EmptyString => false | _ => true end.

End Py.

Import Py.
Notation "x <- m ;; k" := (Py.bind m (fun x => k)) (at level 61, m at next level, right associativity).

(** ** The engine *)

Module Engine.

(** Locations of the heap: indices into it.  Python objects are never
    freed while the engine runs, so [heap_get] always finds the entry. *)
Definition loc := nat.
Definition heap := list dict.

Definition heap_get (h : heap) (l : loc) : dict := nth l h [].

(** Allocation of a new object, e.g. the result of [dict.copy()]. *)
Definition heap_alloc (h : heap) (d : dict) : loc * heap := (length h, h ++ [d]).

(** Overwriting the object at [l] (in-place mutation). *)
Fixpoint heap_set (h : heap) (l : loc) (d : dict) : heap :=
  match h, l with
  | [], _ => []
  | _ :: h', O => d :: h'
  | d' :: h', S l' => d' :: heap_set h' l' d
  end.

(** The attributes set by [PersonalizationEngine.__init__]. *)
Record engine := mkEngine {
  personal_info : dict;
  experience : list loc;
  skills : list string;
  education : list dict
}.

(** The job analysis dictionary; [None] is a missing key. *)
Record job := mkJob {
  role_title : option string;
  company : option string;
  key_requirements : option (list string);
  industry : option string
}.

Definition get_default {A} (o : option A) (d : A) : A :=
  match o with Some a => a | None => d end.

(** [_are_abbreviations] *)
Definition abbreviations : list (string * list string) :=
  [("javascript", ["js"]);
   ("python", ["py"]);
   ("react", ["reactjs"]);
   ("node.js", ["nodejs"; "node"]);
   ("aws", ["amazon web services"]);
   ("sql", ["mysql"; "postgresql"; "sqlite"]);
   ("git", ["github"; "gitlab"])].

Fixpoint abbreviations_loop (tbl : list (string * list string))
    (skill1_lower skill2_lower : string) : bool :=
  match tbl with
  | [] => false
  | (full, abbrevs) :: tbl' =>
      if String.eqb skill1_lower full && existsb (String.eqb skill2_lower) abbrevs
      then true
      else if String.eqb skill2_lower full && existsb (String.eqb skill1_lower) abbrevs
      then true
      else abbreviations_loop tbl' skill1_lower skill2_lower
  end.

Definition are_abbreviations (skill1 skill2 : string) : bool :=
  abbreviations_loop abbreviations (lower skill1) (lower skill2).

(** [_calculate_similarity] *)
Definition calculate_similarity (skill1 skill2 : string) : Q :=
  if String.eqb skill1 skill2 then 1
  else if contains skill1 skill2 || contains skill2 skill1 then 8 # 10
  else if are_abbreviations skill1 skill2 then 9 # 10
  else 0.

(** [skill.lower().strip()] *)
Definition normalize (skill : string) : string := strip (lower skill).

(** The inner [for cv_skill in normalized_cv_skills] loop, which breaks
    at the first candidate skill that matches [job_skill]. *)
Fixpoint search_cv (job_skill : string) (cv_skills : list string) : bool :=
  match cv_skills with
  | [] => false
  | cv_skill :: rest =>
      if contains job_skill cv_skill || contains cv_skill job_skill ||
         negb (Qle_bool (calculate_similarity job_skill cv_skill) (7 # 10))
      then true
      else search_cv job_skill rest
  end.

(** The outer [for job_skill in normalized_job_skills] loop, appending to
    [matched_skills] and [missing_skills]. *)
Fixpoint match_loop (cv_skills job_skills : list string)
    (matched missing : list string) : list string * list string :=
  match job_skills with
  | [] => (matched, missing)
  | job_skill :: rest =>
      if search_cv job_skill cv_skills
      then match_loop cv_skills rest (matched ++ [job_skill]) missing
      else match_loop cv_skills rest matched (missing ++ [job_skill])
  end.

Definition is_empty {A} (l : list A) : bool :=
  match l with [] => true | _ => false end.

(** [len(a) / len(b)] as a float. *)
Definition ratio (a b : nat) : Q := inject_Z (Z.of_nat a) / inject_Z (Z.of_nat b).

(** [analyze_skills_match] *)
Definition analyze_skills_match (e : engine) (job_requirements : list string) : dict :=
  if is_empty job_requirements || is_empty (skills e) then
    [("match_score", VInt 0); ("matched_skills", VStrList []);
     ("missing_skills", VStrList [])]
  else
    let normalized_job_skills := map normalize job_requirements in
    let normalized_cv_skills := map normalize (skills e) in
    let (matched_skills, missing_skills) :=
      match_loop normalized_cv_skills normalized_job_skills [] [] in
    let match_score :=
      if is_empty normalized_job_skills then VInt 0
      else VFloat (ratio (length matched_skills) (length normalized_job_skills)) in
    [("match_score", match_score);
     ("matched_skills", VStrList matched_skills);
     ("missing_skills", VStrList missing_skills);
     ("total_required", VInt (Z.of_nat (length normalized_job_skills)));
     ("total_matched", VInt (Z.of_nat (length matched_skills)))].

(** A string field of an experience entry: [exp.get(k)] when it is a
    string. *)
Definition get_str_field (d : dict) (k : string) : option string :=
  match dict_get d k with Some (VStr s) => Some s | _ => None end.

(** [_calculate_title_similarity] *)
Definition calculate_title_similarity (job_title exp_title : string) : Q :=
  let job_words := set_of (split (lower job_title)) in
  let exp_words := set_of (split (lower exp_title)) in
  if is_empty job_words || is_empty exp_words then 0%Q
  else
    let intersection := set_inter job_words exp_words in
    let union := set_union job_words exp_words in
    if is_empty union then 0%Q else ratio (length intersection) (length union).

(** [_count_skills_in_text] *)
Definition count_skills_in_text (skills : list string) (text : string) : nat :=
  if negb (str_truthy text) then 0
  else
    let text_lower := lower text in
    fold_left (fun count skill =>
                 if contains (lower skill) text_lower then count + 1 else count)
              skills 0.

(** The body of the [for exp in self.experience] loop of
    [find_relevant_experience], up to the threshold test: the
    [relevance_score] of one entry. *)
Definition exp_relevance (job_title : string) (required_skills : list string)
    (exp : dict) : Q :=
  let relevance_score := 0%Q in
  let relevance_score :=
    match get_str_field exp "title" with
    | Some t =>
        if str_truthy job_title && str_truthy t
        then (relevance_score + calculate_title_similarity job_title t * (4 # 10))%Q
        else relevance_score
    | None => relevance_score
    end in
  match get_str_field exp "description" with
  | Some d =>
      if negb (is_empty required_skills) && str_truthy d
      then (relevance_score +
            ratio (count_skills_in_text required_skills d) (length required_skills)
              * (6 # 10))%Q
      else relevance_score
  | None => relevance_score
  end.

(** [relevance_score > 0.1] *)
Definition relevant (score : Q) : bool := negb (Qle_bool score (1 # 10)).

(** The [for exp in self.experience] loop: a relevant entry is copied
    ([exp.copy()]), the copy gets its [relevance_score] key, and the copy
    is appended to [relevant_experience]. *)
Fixpoint collect_relevant (job_title : string) (required_skills : list string)
    (exps : list loc) (h : heap) (relevant_experience : list loc) : list loc * heap :=
  match exps with
  | [] => (relevant_experience, h)
  | exp :: rest =>
      let d := heap_get h exp in
      let relevance_score := exp_relevance job_title required_skills d in
      if relevant relevance_score then
        let (exp_copy, h1) := heap_alloc h d in
        let h2 := heap_set h1 exp_copy
                    (dict_set (heap_get h1 exp_copy) "relevance_score"
                       (VFloat relevance_score)) in
        collect_relevant job_title required_skills rest h2
          (relevant_experience ++ [exp_copy])
      else collect_relevant job_title required_skills rest h relevant_experience
  end.

(** The sort key [x.get('relevance_score', 0)]. *)
Definition sort_key (h : heap) (x : loc) : Q :=
  match dict_get (heap_get h x) "relevance_score" with
  | Some v => get_default (num v) 0%Q
  | None => 0%Q
  end.

(** [list.sort(key=key, reverse=True)]: a stable sort into non-increasing
    key order (equal keys keep their order), written as an insertion
    sort; a stable sort's output is determined by the keys, so any
    stable sort gives this list. *)
Fixpoint insert_desc (key : loc -> Q) (x : loc) (s : list loc) : list loc :=
  match s with
  | [] => [x]
  | y :: s' => if Qle_bool (key x) (key y) then y :: insert_desc key x s' else x :: s
  end.

Definition sort_desc (key : loc -> Q) (l : list loc) : list loc :=
  fold_left (fun s x => insert_desc key x s) l [].

(** [find_relevant_experience] *)
Definition find_relevant_experience (e : engine) (job_title : string)
    (required_skills : list string) (h : heap) : list loc * heap :=
  match experience e with
  | [] => ([], h)
  | exps =>
      let (relevant_experience, h1) :=
        collect_relevant job_title required_skills exps h [] in
      (firstn 3 (sort_desc (sort_key h1) relevant_experience), h1)
  end.

(** The f-strings of [_generate_talking_points]. *)
Definition skills_point (skills : list string) : string :=
  "I have strong experience in " +++ join ", " skills +++
  " which directly align with your requirements.".

Definition role_point (title : string) : string :=
  "In my role as " +++ title +++
  ", I gained valuable experience that would benefit your team.".

Definition company_point (company_name : string) : string :=
  "I'm excited about the opportunity to contribute to " +++ company_name +++
  "'s innovative projects and growth.".

Definition industry_point (industry : string) : string :=
  "I'm passionate about " +++ industry +++
  " and always eager to learn new technologies and approaches.".

(** [_generate_talking_points] *)
Definition generate_talking_points (h : heap) (skills_analysis : dict)
    (relevant_experience : list loc) (job_analysis : job) : res (list string) :=
  ms <- getitem skills_analysis "match_score";;
  high <- gt ms (1 # 2);;
  p1 <- (if high then
           m <- getitem skills_analysis "matched_skills";;
           match m with
           | VStrList matched_skills => ret [skills_point (firstn 3 matched_skills)]
           | _ => inl TypeError
           end
         else ret []);;
  let p2 := match relevant_experience with
            | [] => []
            | top_exp :: _ =>
                [role_point (dict_get_str (heap_get h top_exp) "title" "Software Engineer")]
            end in
  let company_name := get_default (company job_analysis) "" in
  let p3 := if str_truthy company_name then [company_point company_name] else [] in
  let industry := get_default (industry job_analysis) "technology" in
  ret (p1 ++ p2 ++ p3 ++ [industry_point industry]).

(** [_identify_strengths] *)
Definition identify_strengths (e : engine) (skills_analysis : dict) : res (list string) :=
  ms <- getitem skills_analysis "match_score";;
  b1 <- gt ms (7 # 10);;
  tm <- getitem skills_analysis "total_matched";;
  b2 <- gt tm 5;;
  let b3 := 2 <? length (experience e) in
  let b4 := negb (is_empty (education e)) in
  ret ((if b1 then ["Strong technical skills alignment"] else []) ++
       (if b2 then ["Extensive relevant experience"] else []) ++
       (if b3 then ["Proven track record"] else []) ++
       (if b4 then ["Strong educational background"] else [])).

(** [_identify_emphasis_areas] *)
Definition identify_emphasis_areas (job_analysis : job) : list string :=
  let required_skills := get_default (key_requirements job_analysis) [] in
  let text := lower (join " " required_skills) in
  (if contains "communication" text
   then ["Communication and collaboration skills"] else []) ++
  (if existsb (fun skill => contains skill text) ["leadership"; "management"]
   then ["Leadership and project management experience"] else []) ++
  (if existsb (fun skill => contains skill text) ["agile"; "scrum"]
   then ["Agile methodology experience"] else []).

(** The dictionary returned by [generate_personalized_content]. *)
Record personalized := mkPersonalized {
  skills_match : dict;
  relevant_experience : list loc;
  talking_points : list string;
  personal_info_out : dict;
  strengths_to_highlight : list string;
  areas_to_emphasize : list string
}.

(** [generate_personalized_content]: the result or the exception raised,
    and the heap afterwards. *)
Definition generate_personalized_content (e : engine) (job_analysis : job)
    (h : heap) : res personalized * heap :=
  let job_title := get_default (role_title job_analysis) "" in
  let required_skills := get_default (key_requirements job_analysis) [] in
  let skills_analysis := analyze_skills_match e required_skills in
  let (relevant_experience, h1) :=
    find_relevant_experience e job_title required_skills h in
  (talking_points <- generate_talking_points h1 skills_analysis relevant_experience
                       job_analysis;;
   strengths <- identify_strengths e skills_analysis;;
   ret {| skills_match := skills_analysis;
          relevant_experience := relevant_experience;
          talking_points := talking_points;
          personal_info_out := personal_info e;
          strengths_to_highlight := strengths;
          areas_to_emphasize := identify_emphasis_areas job_analysis |}, h1).

End Engine.

(** ** [get_candidate_summary]

    [personal_info] holds string values, as the CV parser produces them;
    a [name] that is missing or not a string counts as absent. *)

Module Summary.
Import Engine.

(** [str(n)] for a non-negative [int]. *)
Definition string_of_nat (n : nat) : string :=
  DecimalString.NilEmpty.string_of_uint (Nat.to_uint n).

Definition get_candidate_summary (e : engine) : string :=
  let name_part :=
    match dict_get (personal_info e) "name" with
    | Some (VStr name) => if str_truthy name then ["I am " +++ name] else []
    | _ => []
    end in
  let exp_part :=
    match experience e with
    | [] => []
    | exps => ["a software engineer with " +++ string_of_nat (length exps) +++
               " years of experience"]
    end in
  let skills_part :=
    match skills e with
    | [] => []
    | sk => ["specializing in " +++ join ", " (firstn 5 sk)]
    end in
  let edu_part :=
    match education e with
    | [] => []
    | ed :: _ => ["with a " +++ dict_get_str ed "degree" "degree"]
    end in
  join " " (name_part ++ exp_part ++ skills_part ++ edu_part) +++ ".".

End Summary.

(** ** The relevance formula in the specification's words

    These definitions follow the specification of the experience ranker,
    not the source, so that the two can be compared.  An entry's missing
    field reads as the empty string. *)

Module SpecModel.
Import Engine.

Definition spec_field (d : dict) (k : string) : string :=
  get_default (get_str_field d k) "".

(** Jaccard similarity of the lower-cased, whitespace-tokenized word
    sets; 0 if either set is empty. *)
Definition spec_title_similarity (a b : string) : Q :=
  let A := set_of (split (lower a)) in
  let B := set_of (split (lower b)) in
  if is_empty A || is_empty B then 0%Q
  else ratio (length (set_inter A B)) (length (set_union A B)).

(** The share of required skills whose normalized (lower-cased, trimmed)
    form occurs in the lower-cased description; 0 if there are no
    required skills or the description is empty. *)
Definition spec_skill_density (req : list string) (desc : string) : Q :=
  if is_empty req || negb (str_truthy desc) then 0%Q
  else ratio (length (filter (fun s => contains (normalize s) (lower desc)) req))
             (length req).

(** The same share, with each skill lower-cased but not trimmed. *)
Definition spec_skill_density_lower (req : list string) (desc : string) : Q :=
  if is_empty req || negb (str_truthy desc) then 0%Q
  else ratio (length (filter (fun s => contains (lower s) (lower desc)) req))
             (length req).

Definition spec_relevance (jt : string) (req : list string) (d : dict) : Q :=
  ((4 # 10) * spec_title_similarity jt (spec_field d "title") +
   (6 # 10) * spec_skill_density req (spec_field d "description"))%Q.

Definition spec_relevance_lower (jt : string) (req : list string) (d : dict) : Q :=
  ((4 # 10) * spec_title_similarity jt (spec_field d "title") +
   (6 # 10) * spec_skill_density_lower req (spec_field d "description"))%Q.

End SpecModel.

(** ** Auxiliary definitions for the ranker's proofs *)

Module RankDefs.
Import Engine.

(** The copy of entry [l0] that the loop stores: the entry with its
    [relevance_score] key set. *)
Definition scored_copy (jt : string) (req : list string) (h : heap) (l0 : loc) : dict :=
  dict_set (heap_get h l0) "relevance_score"
    (VFloat (exp_relevance jt req (heap_get h l0))).

Definition is_relevant (jt : string) (req : list string) (h : heap) (l0 : loc) : bool :=
  relevant (exp_relevance jt req (heap_get h l0)).

(** The entries that pass the threshold, in input order. *)
Definition relevant_sources (e : engine) (jt : string) (req : list string) (h : heap)
  : list loc := filter (is_relevant jt req h) (experience e).

(** [a] comes before [b] in non-increasing key order. *)
Definition desc (key : loc -> Q) (a b : loc) : Prop := (key b <= key a)%Q.

(** [key(x) == k] *)
Definition has_key (key : loc -> Q) (k : Q) (x : loc) : bool := Qeq_bool (key x) k.

End RankDefs.

(** ** Lemmas on the skill matcher *)

Module MatchFacts.
Import Engine.

Lemma abbreviations_loop_existsb tbl x y :
  abbreviations_loop tbl x y =
  existsb (fun p => (String.eqb x (fst p) && existsb (String.eqb y) (snd p)) ||
                    (String.eqb y (fst p) && existsb (String.eqb x) (snd p))) tbl.
Proof.
  induction tbl as [|[full abbrevs] tbl IH]; simpl; [reflexivity|].
  rewrite IH.
  destruct (String.eqb x full && existsb (String.eqb y) abbrevs);
    destruct (String.eqb y full && existsb (String.eqb x) abbrevs); reflexivity.
Qed.

Lemma search_cv_existsb j cvs :
  search_cv j cvs =
  existsb (fun cv => contains j cv || contains cv j ||
                     negb (Qle_bool (calculate_similarity j cv) (7 # 10))) cvs.
Proof.
  induction cvs as [|cv cvs IH]; simpl; [reflexivity|].
  rewrite IH. destruct (_ || _ || _); reflexivity.
Qed.

Lemma existsb_perm {A} (f : A -> bool) l l' :
  Permutation l l' -> existsb f l = existsb f l'.
Proof.
  intros P. apply eq_true_iff_eq. rewrite !existsb_exists.
  split; intros [x [Hx Hf]]; exists x; split; auto.
  - eapply Permutation_in; eauto.
  - eapply Permutation_in; [apply Permutation_sym|]; eauto.
Qed.

Lemma match_loop_filter cvs js m ms :
  match_loop cvs js m ms =
  (m ++ filter (fun j => search_cv j cvs) js,
   ms ++ filter (fun j => negb (search_cv j cvs)) js).
Proof.
  revert m ms. induction js as [|j js IH]; intros m ms; simpl.
  - rewrite !app_nil_r. reflexivity.
  - destruct (search_cv j cvs); rewrite IH; simpl; repeat rewrite <- app_assoc; reflexivity.
Qed.

Lemma filter_partition_perm {A} (p : A -> bool) l :
  Permutation (filter p l ++ filter (fun x => negb (p x)) l) l.
Proof.
  induction l as [|x l IH]; simpl; [constructor|].
  destruct (p x); simpl.
  - constructor. exact IH.
  - apply Permutation_sym, Permutation_cons_app, Permutation_sym, IH.
Qed.

Lemma is_empty_true {A} (l : list A) : is_empty l = true <-> l = [].
Proof. destruct l; simpl; split; congruence. Qed.

(** The result of [analyze_skills_match] in the branch where both lists
    are non-empty. *)
Lemma analyze_nonempty e R :
  skills e <> [] -> R <> [] ->
  let nR := map normalize R in
  let p := fun j => search_cv j (map normalize (skills e)) in
  analyze_skills_match e R =
  [("match_score", VFloat (ratio (length (filter p nR)) (length nR)));
   ("matched_skills", VStrList (filter p nR));
   ("missing_skills", VStrList (filter (fun j => negb (p j)) nR));
   ("total_required", VInt (Z.of_nat (length nR)));
   ("total_matched", VInt (Z.of_nat (length (filter p nR))))].
Proof.
  intros HS HR nR p. unfold analyze_skills_match.
  destruct R as [|r R]; [congruence|].
  destruct (skills e) as [|s S] eqn:ES; [congruence|]. simpl is_empty. cbv iota beta.
  rewrite match_loop_filter. reflexivity.
Qed.

Lemma analyze_empty e R :
  skills e = [] \/ R = [] ->
  analyze_skills_match e R =
  [("match_score", VInt 0); ("matched_skills", VStrList []);
   ("missing_skills", VStrList [])].
Proof.
  intros H. unfold analyze_skills_match.
  destruct H as [H|H]; rewrite H; simpl;
    [destruct (is_empty R); reflexivity | reflexivity].
Qed.

Lemma ratio_bounds a b : (a <= b)%nat -> (0 <= ratio a b <= 1)%Q.
Proof.
  intros Hab. unfold ratio.
  destruct b as [|b].
  - assert (a = 0)%nat by lia. subst. simpl. split; discriminate.
  - assert (Hb : (0 < inject_Z (Z.of_nat (S b)))%Q).
    { unfold inject_Z, Qlt; simpl. lia. }
    split.
    + apply Qle_shift_div_l; [exact Hb|].
      rewrite Qmult_0_l. unfold inject_Z, Qle; simpl. lia.
    + apply Qle_shift_div_r; [exact Hb|].
      rewrite Qmult_1_l. unfold inject_Z, Qle; simpl. lia.
Qed.

End MatchFacts.

(** ** Lemmas on the experience ranker *)

Module RankFacts.
Import Engine RankDefs.

Lemma dict_get_set_same d k v : dict_get (dict_set d k v) k = Some v.
Proof.
  induction d as [|[k' v'] d IH]; simpl.
  - rewrite String.eqb_refl. reflexivity.
  - destruct (String.eqb k k') eqn:E; simpl.
    + rewrite String.eqb_refl. reflexivity.
    + rewrite E. exact IH.
Qed.

Lemma heap_get_app_old h ext l : l < length h -> heap_get (h ++ ext) l = heap_get h l.
Proof. intros Hl. unfold heap_get. apply app_nth1. exact Hl. Qed.

Lemma heap_get_app_last h d : heap_get (h ++ [d]) (length h) = d.
Proof. unfold heap_get. rewrite app_nth2 by lia. rewrite Nat.sub_diag. reflexivity. Qed.

Lemma heap_set_last h d d' : heap_set (h ++ [d]) (length h) d' = h ++ [d'].
Proof. induction h as [|x h IH]; simpl; [reflexivity|]. rewrite IH. reflexivity. Qed.

(** What the loop of [find_relevant_experience] does, when every entry
    it reads lives in the heap: it appends one fresh copy per relevant
    entry, in input order, and touches nothing else. *)
Lemma collect_relevant_exact jt req exps h acc :
  (forall l0, In l0 exps -> l0 < length h) ->
  let ext := map (scored_copy jt req h) (filter (is_relevant jt req h) exps) in
  collect_relevant jt req exps h acc = (acc ++ seq (length h) (length ext), h ++ ext).
Proof.
  revert h acc. induction exps as [|l0 exps IH]; intros h acc Hin ext.
  - subst ext. simpl. rewrite !app_nil_r. reflexivity.
  - subst ext. simpl.
    destruct (is_relevant jt req h l0) eqn:R;
      unfold is_relevant in R; rewrite R.
    + unfold heap_alloc. rewrite heap_get_app_last, heap_set_last.
      set (h2 := h ++ [dict_set (heap_get h l0) "relevance_score"
                         (VFloat (exp_relevance jt req (heap_get h l0)))]).
      assert (Hin2 : forall l, In l exps -> l < length h2).
      { intros l Hl. subst h2. rewrite length_app. simpl.
        specialize (Hin l (or_intror Hl)). lia. }
      assert (Hold : forall l, In l exps -> heap_get h2 l = heap_get h l).
      { intros l Hl. apply heap_get_app_old. apply Hin. right. exact Hl. }
      pose proof (IH h2 (acc ++ [length h]) Hin2) as IH2. cbv zeta in IH2.
      refine (eq_trans IH2 _).
      assert (Hf : filter (is_relevant jt req h2) exps = filter (is_relevant jt req h) exps).
      { apply filter_ext_in. intros l Hl. unfold is_relevant. rewrite Hold; auto. }
      rewrite Hf.
      assert (Hm : map (scored_copy jt req h2) (filter (is_relevant jt req h) exps) =
                   map (scored_copy jt req h) (filter (is_relevant jt req h) exps)).
      { apply map_ext_in. intros l Hl. apply filter_In in Hl.
        unfold scored_copy. rewrite Hold; tauto. }
      rewrite Hm. subst h2. rewrite length_app. simpl.
      rewrite <- !app_assoc. simpl. unfold scored_copy at 1.
      replace (length h + 1) with (S (length h)) by lia. reflexivity.
    + pose proof (IH h acc (fun l Hl => Hin l (or_intror Hl))) as IH2.
      cbv zeta in IH2. exact IH2.
Qed.

End RankFacts.

(** ** The stable descending sort *)

Module SortFacts.
Import Engine RankDefs.

Section Sort.
Variable key : loc -> Q.

Local Abbreviation desc := (desc key).
Local Abbreviation has_key := (has_key key).

Lemma insert_desc_perm x s : Permutation (insert_desc key x s) (x :: s).
Proof.
  induction s as [|y s IH]; simpl; [reflexivity|].
  destruct (Qle_bool (key x) (key y)); [|reflexivity].
  etransitivity; [apply perm_skip, IH|apply perm_swap].
Qed.

Lemma not_le_desc x y : Qle_bool (key x) (key y) = false -> desc x y.
Proof.
  intros H. unfold desc. apply Qlt_le_weak, Qnot_le_lt.
  intros Hle. apply Qle_bool_iff in Hle. congruence.
Qed.

Lemma insert_desc_hd y x s :
  HdRel desc y s -> desc y x -> HdRel desc y (insert_desc key x s).
Proof.
  intros Hs Hx. destruct s as [|z s]; simpl; [constructor; exact Hx|].
  destruct (Qle_bool (key x) (key z)); constructor; [inversion Hs; assumption|exact Hx].
Qed.

Lemma insert_desc_sorted x s : Sorted desc s -> Sorted desc (insert_desc key x s).
Proof.
  induction s as [|y s IH]; intros Hs; simpl; [repeat constructor|].
  inversion Hs as [|? ? Hs' Hhd]; subst.
  destruct (Qle_bool (key x) (key y)) eqn:E.
  - constructor; [apply IH, Hs'|].
    apply insert_desc_hd; [exact Hhd|]. apply Qle_bool_iff. exact E.
  - constructor; [exact Hs|]. constructor. apply not_le_desc. exact E.
Qed.

Lemma desc_trans : Transitive desc.
Proof. intros a b c Hab Hbc. unfold desc in *. eapply Qle_trans; eauto. Qed.

Lemma insert_desc_filter k x s :
  Sorted desc s ->
  filter (has_key k) (insert_desc key x s) =
  filter (has_key k) s ++ (if has_key k x then [x] else []).
Proof.
  induction s as [|y s IH]; intros Hs; simpl.
  - destruct (has_key k x); reflexivity.
  - inversion Hs as [|? ? Hs' Hhd]; subst.
    destruct (Qle_bool (key x) (key y)) eqn:E; simpl.
    + rewrite IH by exact Hs'. destruct (has_key k y); reflexivity.
    + assert (Hlt : (key y < key x)%Q).
      { apply Qnot_le_lt. intros Hle. apply Qle_bool_iff in Hle. congruence. }
      destruct (has_key k x) eqn:Kx.
      * assert (Hnone : filter (has_key k) (y :: s) = []).
        { apply Sorted_StronglySorted in Hs; [|exact desc_trans].
          inversion Hs as [|? ? _ Hall]; subst.
          unfold has_key in *. apply Qeq_bool_iff in Kx.
          simpl. destruct (Qeq_bool (key y) k) eqn:Ky.
          { apply Qeq_bool_iff in Ky. exfalso. lra. }
          transitivity (filter (fun _ : loc => false) s);
            [apply filter_ext_in|apply filter_false]. intros z Hz.
          rewrite Forall_forall in Hall. specialize (Hall z Hz). unfold desc in Hall.
          destruct (Qeq_bool (key z) k) eqn:Kz; [|reflexivity].
          apply Qeq_bool_iff in Kz. exfalso. lra. }
        simpl in Hnone. rewrite Hnone. reflexivity.
      * rewrite app_nil_r. reflexivity.
Qed.

Lemma sort_desc_snoc l x :
  sort_desc key (l ++ [x]) = insert_desc key x (sort_desc key l).
Proof. unfold sort_desc. rewrite fold_left_app. reflexivity. Qed.

Lemma sort_desc_sorted l : Sorted desc (sort_desc key l).
Proof.
  induction l as [|x l IH] using rev_ind; [constructor|].
  rewrite sort_desc_snoc. apply insert_desc_sorted, IH.
Qed.

Lemma sort_desc_perm l : Permutation (sort_desc key l) l.
Proof.
  induction l as [|x l IH] using rev_ind; [reflexivity|].
  rewrite sort_desc_snoc. etransitivity; [apply insert_desc_perm|].
  etransitivity; [apply perm_skip, IH|]. apply Permutation_cons_append.
Qed.

(** Stability: the entries of any one key keep their relative order. *)
Lemma sort_desc_stable k l :
  filter (has_key k) (sort_desc key l) = filter (has_key k) l.
Proof.
  induction l as [|x l IH] using rev_ind; [reflexivity|].
  rewrite sort_desc_snoc, insert_desc_filter by apply sort_desc_sorted.
  rewrite IH, filter_app. simpl. destruct (has_key k x); reflexivity.
Qed.

Lemma sorted_firstn n l : Sorted desc l -> Sorted desc (firstn n l).
Proof.
  revert l. induction n as [|n IH]; intros l Hl; simpl; [constructor|].
  destruct l as [|x l]; [constructor|].
  inversion Hl as [|? ? Hl' Hhd]; subst. constructor; [apply IH, Hl'|].
  destruct n; simpl; [constructor|]. destruct l; constructor.
  inversion Hhd; assumption.
Qed.

End Sort.

End SortFacts.

(** ** The relevance score against the specification's formula *)

Module RelevanceFacts.
Import Engine SpecModel.

Lemma count_fold skills text c :
  fold_left (fun count skill => if contains (lower skill) text then count + 1 else count)
    skills c = c + length (filter (fun s => contains (lower s) text) skills).
Proof.
  revert c. induction skills as [|x xs IH]; intros c; simpl; [lia|].
  rewrite IH. destruct (contains (lower x) text); simpl; lia.
Qed.

Lemma set_union_nonempty a b : is_empty a = false -> is_empty (set_union a b) = false.
Proof.
  destruct a as [|x a]; [discriminate|]. intros _.
  destruct (set_union (x :: a) b) eqn:E; [|reflexivity].
  assert (H : In x (set_union (x :: a) b)).
  { unfold set_union. apply nodup_In. left. reflexivity. }
  rewrite E in H. destruct H.
Qed.

Lemma title_similarity_spec jt t :
  calculate_title_similarity jt t = spec_title_similarity jt t.
Proof.
  unfold calculate_title_similarity, spec_title_similarity.
  destruct (is_empty (set_of (split (lower jt)))) eqn:A; [reflexivity|].
  destruct (is_empty (set_of (split (lower t)))); [reflexivity|]. simpl.
  rewrite set_union_nonempty by exact A. reflexivity.
Qed.

Lemma spec_title_similarity_empty_l t : spec_title_similarity "" t = 0%Q.
Proof. reflexivity. Qed.

Lemma spec_title_similarity_empty_r jt : spec_title_similarity jt "" = 0%Q.
Proof.
  unfold spec_title_similarity. cbv zeta.
  destruct (is_empty (set_of (split (lower jt)))); reflexivity.
Qed.

End RelevanceFacts.

(** ** Shape of [find_relevant_experience] *)

Module RankShape.
Import Engine RankDefs RankFacts SortFacts.

Lemma heap_get_copy h f (l0s : list loc) i :
  i < length l0s -> heap_get (h ++ map f l0s) (length h + i) = f (nth i l0s 0).
Proof.
  intros Hi. unfold heap_get.
  rewrite app_nth2 by lia. replace (length h + i - length h) with i by lia.
  rewrite nth_indep with (d' := f 0) by (rewrite length_map; exact Hi).
  apply map_nth.
Qed.

Lemma find_relevant_shape e jt req h :
  (forall l0, In l0 (experience e) -> l0 < length h) ->
  let src := relevant_sources e jt req h in
  let h1 := h ++ map (scored_copy jt req h) src in
  find_relevant_experience e jt req h =
  (firstn 3 (sort_desc (sort_key h1) (seq (length h) (length src))), h1).
Proof.
  intros Hin src h1. unfold find_relevant_experience.
  subst src h1. unfold relevant_sources.
  destruct (experience e) as [|x xs] eqn:E.
  - simpl. rewrite app_nil_r. reflexivity.
  - rewrite <- E in *. pose proof (collect_relevant_exact jt req (experience e) h [] Hin)
      as C. cbv zeta in C. rewrite E in C |- *. rewrite C. simpl.
    rewrite length_map. reflexivity.
Qed.

Lemma copy_key jt req h src i :
  i < length src ->
  sort_key (h ++ map (scored_copy jt req h) src) (length h + i) =
  exp_relevance jt req (heap_get h (nth i src 0)).
Proof.
  intros Hi. unfold sort_key. rewrite heap_get_copy by exact Hi.
  unfold scored_copy. rewrite dict_get_set_same. reflexivity.
Qed.

Lemma relevant_gt q : relevant q = true -> (1 # 10 < q)%Q.
Proof.
  unfold relevant. intros H. apply Qnot_le_lt. intros Hle.
  apply Qle_bool_iff in Hle. rewrite Hle in H. discriminate.
Qed.

Lemma in_firstn_in {A} n (l : list A) x : In x (firstn n l) -> In x l.
Proof.
  intros H. rewrite <- (firstn_skipn n l). apply in_or_app. left. exact H.
Qed.

(** Every returned entry is the copy at [length h + i] of the [i]-th
    relevant source entry. *)
Lemma in_find_result e jt req h l :
  (forall l0, In l0 (experience e) -> l0 < length h) ->
  In l (fst (find_relevant_experience e jt req h)) ->
  exists i, i < length (relevant_sources e jt req h) /\ l = length h + i.
Proof.
  intros Hin Hl. rewrite find_relevant_shape in Hl by exact Hin. cbn [fst] in Hl.
  apply in_firstn_in in Hl.
  eapply Permutation_in in Hl; [|apply sort_desc_perm].
  apply in_seq in Hl. exists (l - length h). split; lia.
Qed.

Lemma source_in e jt req h i :
  i < length (relevant_sources e jt req h) ->
  In (nth i (relevant_sources e jt req h) 0) (experience e) /\
  is_relevant jt req h (nth i (relevant_sources e jt req h) 0) = true.
Proof.
  intros Hi. apply filter_In. unfold relevant_sources. apply nth_In. exact Hi.
Qed.

End RankShape.

(** ** Talking points *)

Module TalkFacts.
Import Engine MatchFacts.

Lemma analyze_fields e R :
  exists v q ms,
    dict_get (analyze_skills_match e R) "match_score" = Some v /\ num v = Some q /\
    dict_get (analyze_skills_match e R) "matched_skills" = Some (VStrList ms).
Proof.
  destruct (skills e) as [|s S] eqn:ES.
  - rewrite analyze_empty by (left; exact ES). eexists _, _, _. split; [reflexivity|].
    split; reflexivity.
  - destruct R as [|x R'].
    + rewrite analyze_empty by (right; reflexivity). eexists _, _, _.
      split; [reflexivity|]. split; reflexivity.
    + rewrite analyze_nonempty by (rewrite ?ES; discriminate).
      eexists _, _, _. split; [reflexivity|]. split; reflexivity.
Qed.

Lemma talking_points_shape h sa rel ja v q ms :
  dict_get sa "match_score" = Some v -> num v = Some q ->
  dict_get sa "matched_skills" = Some (VStrList ms) ->
  generate_talking_points h sa rel ja =
  inr ((if Qle_bool q (1 # 2) then [] else [skills_point (firstn 3 ms)]) ++
       match rel with
       | [] => []
       | top :: _ => [role_point (dict_get_str (heap_get h top) "title" "Software Engineer")]
       end ++
       (if str_truthy (get_default (company ja) "")
        then [company_point (get_default (company ja) "")] else []) ++
       [industry_point (get_default (industry ja) "technology")]).
Proof.
  intros Hv Hq Hm. unfold generate_talking_points, getitem.
  rewrite Hv. cbv [Py.bind]. cbv beta iota. unfold Py.gt. rewrite Hq.
  destruct (Qle_bool q (1 # 2)); cbv beta iota; [reflexivity|].
  rewrite Hm. reflexivity.
Qed.

Lemma head_point_length (f : loc -> string) (l : list loc) :
  length (match l with [] => [] | top :: _ => [f top] end) <= 1.
Proof. destruct l; simpl; lia. Qed.

Lemma talking_points_length (b1 b3 : bool) (o2 : list string) x1 x3 x4 :
  length o2 <= 1 ->
  1 <= length ((if b1 then [] else [x1]) ++ o2 ++ (if b3 then [x3] else []) ++ [x4]) <= 4.
Proof. intros H. rewrite !length_app. destruct b1, b3; simpl; lia. Qed.

Lemma synthesize_talking_points e ja h p :
  let jt := get_default (role_title ja) "" in
  let R := get_default (key_requirements ja) [] in
  fst (generate_personalized_content e ja h) = inr p ->
  generate_talking_points (snd (find_relevant_experience e jt R h))
    (analyze_skills_match e R) (fst (find_relevant_experience e jt R h)) ja =
  inr (talking_points p).
Proof.
  intros jt R. unfold generate_personalized_content. fold jt R.
  destruct (find_relevant_experience e jt R h) as [rel h1]. simpl.
  destruct (generate_talking_points h1 _ rel ja) as [ex|tps]; [discriminate|].
  simpl. destruct (identify_strengths e _) as [ex|st]; [discriminate|].
  simpl. intros Hp. injection Hp as <-. reflexivity.
Qed.

End TalkFacts.

(** ** The specification's claims *)

Module Claims.
Import Engine SpecModel RankDefs MatchFacts SortFacts RankFacts RelevanceFacts RankShape
  TalkFacts.

(** *** Skill matcher *)

(** C2 (counterexample).  With no candidate skills and the requirement
    ["Python"], the zero result's [missing_skills] does not contain the
    normalized requirement ["python"]: it is empty. *)
Lemma match_zero_missing_not_all :
  ~ (exists ms,
       dict_get (analyze_skills_match (mkEngine [] [] [] []) ["Python"]) "missing_skills"
       = Some (VStrList ms) /\ In (normalize "Python") ms).
Proof.
  intros [ms [H Hin]]. vm_compute in H. injection H as <-. exact Hin.
Qed.

(** C2 (amended).  When both the candidate skill list and the
    requirement list are non-empty, [matched_skills] and [missing_skills]
    partition the normalized requirement list: together they are a
    permutation of it and no string is in both.  When either list is
    empty, both are empty lists. *)
Theorem match_partition e R :
  let r := analyze_skills_match e R in
  exists m ms,
    dict_get r "matched_skills" = Some (VStrList m) /\
    dict_get r "missing_skills" = Some (VStrList ms) /\
    (skills e = [] \/ R = [] -> m = [] /\ ms = []) /\
    (skills e <> [] -> R <> [] ->
     Permutation (m ++ ms) (map normalize R) /\ (forall x, In x m -> ~ In x ms)).
Proof.
  intros r. subst r.
  destruct (skills e) as [|s S] eqn:ES.
  - rewrite analyze_empty by (left; exact ES). simpl.
    exists [], []. repeat split; try reflexivity; congruence.
  - destruct R as [|x R'].
    + rewrite analyze_empty by (right; reflexivity). simpl.
      exists [], []. repeat split; try reflexivity; congruence.
    + rewrite analyze_nonempty by (rewrite ?ES; discriminate).
      set (p := fun j => search_cv j (map normalize (skills e))).
      exists (filter p (map normalize (x :: R'))),
             (filter (fun j => negb (p j)) (map normalize (x :: R'))).
      split; [reflexivity|]. split; [reflexivity|].
      split; [intros [H|H]; discriminate|].
      intros _ _. split.
      * apply filter_partition_perm.
      * intros y Hm Hms. apply filter_In in Hm. apply filter_In in Hms.
        destruct Hm as [_ Hm]. destruct Hms as [_ Hms]. rewrite Hm in Hms. discriminate.
Qed.



(** C6.  The abbreviation test is symmetric in its two arguments, and
    [JS] and [javascript] match each other in both roles. *)
Theorem abbreviations_symmetric :
  (forall a b, are_abbreviations a b = are_abbreviations b a) /\
  dict_get (analyze_skills_match (mkEngine [] [] ["JS"] []) ["javascript"])
    "matched_skills" = Some (VStrList ["javascript"]) /\
  dict_get (analyze_skills_match (mkEngine [] [] ["javascript"] []) ["JS"])
    "matched_skills" = Some (VStrList ["js"]).
Proof.
  split; [|split; vm_compute; reflexivity].
  intros a b. unfold are_abbreviations. rewrite !abbreviations_loop_existsb.
  induction abbreviations as [|q t IH]; simpl; [reflexivity|].
  rewrite IH. f_equal. apply orb_comm.
Qed.

(** C9.  When either list is empty, the result has exactly the keys
    [match_score], [matched_skills] and [missing_skills]; in particular
    [total_required] and [total_matched] are absent. *)
Theorem zero_result_keys e R :
  skills e = [] \/ R = [] ->
  map fst (analyze_skills_match e R) = ["match_score"; "matched_skills"; "missing_skills"] /\
  dict_get (analyze_skills_match e R) "total_required" = None /\
  dict_get (analyze_skills_match e R) "total_matched" = None.
Proof.
  intros H. rewrite analyze_empty by exact H. repeat split.
Qed.

Lemma zero_result_keys_witness :
  skills (mkEngine [] [] [] []) = [] /\
  map fst (analyze_skills_match (mkEngine [] [] [] []) ["Python"]) =
    ["match_score"; "matched_skills"; "missing_skills"] /\
  dict_get (analyze_skills_match (mkEngine [] [] [] []) ["Python"]) "total_required" = None /\
  dict_get (analyze_skills_match (mkEngine [] [] [] []) ["Python"]) "total_matched" = None.
Proof.
  split; [reflexivity|]. apply (zero_result_keys (mkEngine [] [] [] []) ["Python"]).
  left. reflexivity.
Defined.

(** C10.  Permuting the candidate skill list does not change the result
    of [analyze_skills_match]. *)
Theorem match_perm_invariant e e' R :
  Permutation (skills e) (skills e') ->
  analyze_skills_match e R = analyze_skills_match e' R.
Proof.
  intros P.
  destruct (skills e) as [|s S] eqn:ES.
  - apply Permutation_nil in P.
    rewrite !analyze_empty by (left; assumption). reflexivity.
  - destruct (skills e') as [|s' S'] eqn:ES'.
    + apply Permutation_sym, Permutation_nil in P. discriminate.
    + destruct R as [|x R']; [rewrite !analyze_empty by (right; reflexivity); reflexivity|].
      rewrite !analyze_nonempty by (rewrite ?ES, ?ES'; discriminate).
      assert (Hp : forall j, search_cv j (map normalize (skills e)) =
                             search_cv j (map normalize (skills e'))).
      { intros j. rewrite !search_cv_existsb. apply existsb_perm.
        rewrite ES, ES'. apply Permutation_map, P. }
      rewrite (filter_ext _ _ Hp).
      rewrite (filter_ext (fun j => negb (search_cv j (map normalize (skills e))))
                          (fun j => negb (search_cv j (map normalize (skills e'))))).
      { reflexivity. }
      intros j. rewrite Hp. reflexivity.
Qed.

Lemma match_perm_invariant_witness :
  Permutation ["Python"; "AWS"] ["AWS"; "Python"] /\
  analyze_skills_match (mkEngine [] [] ["Python"; "AWS"] []) ["aws"; "Go"] =
  analyze_skills_match (mkEngine [] [] ["AWS"; "Python"] []) ["aws"; "Go"].
Proof.
  split; [apply perm_swap|].
  apply match_perm_invariant. simpl. apply perm_swap.
Defined.

(** *** Synthesizer *)

(** C1 (code bug).  When the candidate has no skills, or the job has no
    requirements, [generate_personalized_content] raises
    [KeyError('total_matched')]: the zero result of
    [analyze_skills_match] lacks the key, and [_identify_strengths]
    reads it unconditionally. *)
Theorem synthesize_empty_raises e ja h :
  skills e = [] \/ get_default (key_requirements ja) [] = [] ->
  fst (generate_personalized_content e ja h) = inl (KeyError "total_matched").
Proof.
  intros H. unfold generate_personalized_content.
  rewrite analyze_empty by exact H.
  destruct (find_relevant_experience e _ _ h) as [rel h1]. reflexivity.
Qed.

Lemma synthesize_empty_raises_witness :
  skills (mkEngine [] [] [] []) = [] /\
  fst (generate_personalized_content (mkEngine [] [] [] [])
         (mkJob (Some "Software Engineer") (Some "Innovation Inc") (Some ["Python"])
                (Some "technology")) [])
  = inl (KeyError "total_matched").
Proof.
  split; [reflexivity|]. apply synthesize_empty_raises. left. reflexivity.
Defined.

(** *** Experience ranker *)

(** C4.  [find_relevant_experience] returns at most three entries, in
    non-increasing [relevance_score] order, each scoring strictly more
    than 0.1.  The returned list is the first three of a stable sort of
    the candidate copies: the candidates are the copies, at fresh
    locations in input order, of the entries that pass the threshold,
    each carrying that entry's score, and for every score value the
    entries with that score keep their candidate order. *)
Theorem rank_top3_sorted_stable e jt req h :
  (forall l0, In l0 (experience e) -> l0 < length h) ->
  let res := fst (find_relevant_experience e jt req h) in
  let h1 := snd (find_relevant_experience e jt req h) in
  let src := relevant_sources e jt req h in
  let cands := seq (length h) (length src) in
  length res <= 3 /\
  Sorted (desc (sort_key h1)) res /\
  (forall l, In l res -> (1 # 10 < sort_key h1 l)%Q) /\
  (forall i, i < length src ->
     sort_key h1 (length h + i) = exp_relevance jt req (heap_get h (nth i src 0))) /\
  (exists s, res = firstn 3 s /\ Permutation s cands /\
     forall k, filter (has_key (sort_key h1) k) s = filter (has_key (sort_key h1) k) cands).
Proof.
  intros Hin res h1 src cands.
  assert (Hsh := find_relevant_shape e jt req h Hin). cbv zeta in Hsh.
  assert (Hh1 : h1 = h ++ map (scored_copy jt req h) src) by (subst h1 src; rewrite Hsh; reflexivity).
  assert (Hres : res = firstn 3 (sort_desc (sort_key h1) cands))
    by (subst res cands src; rewrite Hsh, <- Hh1; reflexivity).
  assert (Hkey : forall i, i < length src ->
            sort_key h1 (length h + i) = exp_relevance jt req (heap_get h (nth i src 0))).
  { intros i Hi. rewrite Hh1. apply copy_key. exact Hi. }
  split; [rewrite Hres, length_firstn; lia|].
  split; [rewrite Hres; apply sorted_firstn, sort_desc_sorted|].
  split.
  { intros l Hl. destruct (in_find_result e jt req h l Hin Hl) as [i [Hi ->]].
    rewrite Hkey by exact Hi. apply relevant_gt.
    destruct (source_in e jt req h i Hi) as [_ R]. exact R. }
  split; [exact Hkey|].
  exists (sort_desc (sort_key h1) cands). split; [exact Hres|]. split.
  - apply sort_desc_perm.
  - intros k. apply sort_desc_stable.
Qed.

Lemma rank_top3_sorted_stable_witness :
  (forall l0, In l0 [0] -> l0 < length [[("title", VStr "Software Engineer")]]) /\
  length (fst (find_relevant_experience (mkEngine [] [0] [] [])
                 "Software Engineer" [] [[("title", VStr "Software Engineer")]])) <= 3.
Proof.
  assert (H : forall l0, In l0 [0] -> l0 < length [[("title", VStr "Software Engineer")]]).
  { intros l0 [<-|[]]. simpl. lia. }
  split; [exact H|].
  exact (proj1 (rank_top3_sorted_stable (mkEngine [] [0] [] []) "Software Engineer" []
                  [[("title", VStr "Software Engineer")]] H)).
Defined.

(** C8.  [generate_personalized_content] only allocates: the heap after
    the call extends the heap before it, so every object that existed
    before (in particular every experience entry of the caller) is
    unchanged, whether the call returns or raises.  When it returns,
    every returned experience entry is a fresh object, a copy of one of
    the caller's entries with [relevance_score] added, and
    [personal_info] is the caller's dictionary, passed through. *)
Theorem synthesize_frame e ja h :
  (forall l0, In l0 (experience e) -> l0 < length h) ->
  let jt := get_default (role_title ja) "" in
  let req := get_default (key_requirements ja) [] in
  let r := generate_personalized_content e ja h in
  (exists ext, snd r = h ++ ext) /\
  forall p, fst r = inr p ->
    personal_info_out p = personal_info e /\
    forall l, In l (relevant_experience p) ->
      length h <= l /\
      exists l0, In l0 (experience e) /\
        heap_get (snd r) l =
        dict_set (heap_get h l0) "relevance_score"
          (VFloat (exp_relevance jt req (heap_get h l0))).
Proof.
  intros Hin jt req r.
  assert (Hsh := find_relevant_shape e jt req h Hin). cbv zeta in Hsh.
  assert (Hr : r = (p0 <- generate_talking_points (snd (find_relevant_experience e jt req h))
                            (analyze_skills_match e req)
                            (fst (find_relevant_experience e jt req h)) ja;;
                    st <- identify_strengths e (analyze_skills_match e req);;
                    ret {| skills_match := analyze_skills_match e req;
                           relevant_experience := fst (find_relevant_experience e jt req h);
                           talking_points := p0;
                           personal_info_out := personal_info e;
                           strengths_to_highlight := st;
                           areas_to_emphasize := identify_emphasis_areas ja |},
                    snd (find_relevant_experience e jt req h))).
  { subst r. unfold generate_personalized_content. fold jt req.
    destruct (find_relevant_experience e jt req h). reflexivity. }
  rewrite Hr. simpl. split.
  { rewrite Hsh. simpl. eexists. reflexivity. }
  intros p Hp.
  destruct (generate_talking_points _ _ _ _) as [ex|tps]; [discriminate|].
  simpl in Hp. destruct (identify_strengths _ _) as [ex|st]; [discriminate|].
  simpl in Hp. injection Hp as <-. simpl. split; [reflexivity|].
  intros l Hl. destruct (in_find_result e jt req h l Hin Hl) as [i [Hi ->]].
  split; [lia|].
  destruct (source_in e jt req h i Hi) as [Hsrc _].
  exists (nth i (relevant_sources e jt req h) 0). split; [exact Hsrc|].
  rewrite Hsh. simpl. rewrite heap_get_copy by exact Hi. reflexivity.
Qed.

Lemma synthesize_frame_witness :
  (forall l0, In l0 [0] -> l0 < length [[("title", VStr "Software Engineer")]]) /\
  exists ext,
    snd (generate_personalized_content (mkEngine [] [0] ["Python"] [])
           (mkJob (Some "Software Engineer") None (Some ["Python"]) None)
           [[("title", VStr "Software Engineer")]]) =
    [[("title", VStr "Software Engineer")]] ++ ext.
Proof.
  assert (H : forall l0, In l0 [0] -> l0 < length [[("title", VStr "Software Engineer")]]).
  { intros l0 [<-|[]]. simpl. lia. }
  split; [exact H|].
  exact (proj1 (synthesize_frame (mkEngine [] [0] ["Python"] [])
                  (mkJob (Some "Software Engineer") None (Some ["Python"]) None)
                  [[("title", VStr "Software Engineer")]] H)).
Defined.

(** C5 (counterexample).  For the requirement ["python "] (with a
    trailing blank) and an entry whose description is ["python"], the
    specification's normalized-skill density is 1, so its formula gives
    0.6, but the code tests ["python "] itself and scores the entry 0. *)
Lemma relevance_untrimmed_counterexample :
  let d := [("title", VStr ""); ("description", VStr "python")] in
  (exp_relevance "" ["python "] d == 0)%Q /\
  (spec_relevance "" ["python "] d == 6 # 10)%Q /\
  ~ (exp_relevance "" ["python "] d == spec_relevance "" ["python "] d)%Q.
Proof.
  intros d. split; [vm_compute; reflexivity|]. split; [vm_compute; reflexivity|].
  vm_compute. discriminate.
Qed.

(** C5 (amended).  The relevance score of every entry is
    [0.4 * title_similarity + 0.6 * skill_density], where
    [title_similarity] is the Jaccard similarity of the lower-cased word
    sets (0 if either is empty) and [skill_density] is the share of
    required skills whose lower-cased, untrimmed form occurs in the
    lower-cased description (0 if there are no required skills or the
    description is empty).  [find_relevant_experience] stores this score
    in the copies it returns ([Claims.rank_top3_sorted_stable]). *)
Theorem relevance_formula jt req d :
  (exp_relevance jt req d == spec_relevance_lower jt req d)%Q.
Proof.
  unfold exp_relevance, spec_relevance_lower, spec_field. cbv zeta.
  assert (HT : forall o,
    (match o with
     | Some t => if str_truthy jt && str_truthy t
                 then (0 + calculate_title_similarity jt t * (4 # 10))%Q else 0%Q
     | None => 0%Q
     end == (4 # 10) * spec_title_similarity jt (get_default o ""))%Q).
  { intros [t|]; simpl.
    - destruct (str_truthy jt) eqn:J; destruct (str_truthy t) eqn:T; simpl.
      + rewrite title_similarity_spec. ring.
      + destruct t; [|discriminate]. rewrite spec_title_similarity_empty_r. ring.
      + destruct jt; [|discriminate]. rewrite spec_title_similarity_empty_l. ring.
      + destruct jt; [|discriminate]. rewrite spec_title_similarity_empty_l. ring.
    - rewrite spec_title_similarity_empty_r. ring. }
  specialize (HT (get_str_field d "title")).
  destruct (get_str_field d "description") as [ds|]; simpl.
  - unfold spec_skill_density_lower.
    destruct (is_empty req) eqn:R; simpl.
    + rewrite HT. ring.
    + destruct (str_truthy ds) eqn:Ds; simpl.
      * unfold count_skills_in_text. rewrite Ds. simpl. rewrite count_fold.
        simpl. rewrite HT. ring.
      * rewrite HT. ring.
  - unfold spec_skill_density_lower. simpl.
    destruct (is_empty req); simpl; rewrite HT; ring.
Qed.

(** C7.  For every input, the talking points generated for
    [generate_personalized_content] are, in this order: the matched-skills
    sentence (naming at most three matched skills) only if [match_score]
    exceeds 0.5, the sentence naming the top-ranked entry's title only
    if some experience is relevant, the company sentence only if
    [company] is non-empty, and always the industry sentence (with
    ["technology"] when [industry] is missing).  So there are between
    one and four of them, the last being the industry sentence; when
    the call returns, its [talking_points] is this list. *)
Theorem talking_points_order e ja h :
  let R := get_default (key_requirements ja) [] in
  let jt := get_default (role_title ja) "" in
  let sa := analyze_skills_match e R in
  let rel := fst (find_relevant_experience e jt R h) in
  let h1 := snd (find_relevant_experience e jt R h) in
  let company_name := get_default (company ja) "" in
  let ind := get_default (industry ja) "technology" in
  exists q ms tps,
    (exists v, dict_get sa "match_score" = Some v /\ num v = Some q) /\
    dict_get sa "matched_skills" = Some (VStrList ms) /\
    generate_talking_points h1 sa rel ja = inr tps /\
    tps = (if Qle_bool q (1 # 2) then [] else [skills_point (firstn 3 ms)]) ++
          match rel with
          | [] => []
          | top :: _ =>
              [role_point (dict_get_str (heap_get h1 top) "title" "Software Engineer")]
          end ++
          (if str_truthy company_name then [company_point company_name] else []) ++
          [industry_point ind] /\
    1 <= length tps <= 4 /\
    last tps "" = industry_point ind /\
    (forall p, fst (generate_personalized_content e ja h) = inr p -> talking_points p = tps).
Proof.
  intros R jt sa rel h1 company_name ind.
  destruct (analyze_fields e R) as [v [q [ms [Hv [Hq Hm]]]]].
  eexists q, ms, _.
  split; [exists v; split; assumption|]. split; [exact Hm|].
  split; [apply (talking_points_shape h1 sa rel ja v q ms Hv Hq Hm)|].
  split; [reflexivity|].
  split.
  { apply talking_points_length. apply head_point_length. }
  split; [rewrite !app_assoc; apply last_last|].
  intros p Hp. apply synthesize_talking_points in Hp. fold jt R sa rel h1 in Hp.
  rewrite (talking_points_shape h1 sa rel ja v q ms Hv Hq Hm) in Hp.
  injection Hp as Hp. symmetry. exact Hp.
Qed.

End Claims.

(** ** Further properties of the engine *)

Module Extras.
Import Engine Summary MatchFacts TalkFacts RankDefs RankShape.

(** *** Helper lemmas *)

Lemma prefixb_refl s : prefixb s s = true.
Proof. induction s as [|c s IH]; simpl; [reflexivity|]. rewrite Ascii.eqb_refl. exact IH. Qed.

Lemma contains_refl s : contains s s = true.
Proof. destruct s; simpl; [reflexivity|]. rewrite Ascii.eqb_refl, prefixb_refl. reflexivity. Qed.

Lemma contains_empty_l s : contains "" s = true.
Proof. destruct s; reflexivity. Qed.

Lemma are_abbreviations_comm a b : are_abbreviations a b = are_abbreviations b a.
Proof.
  unfold are_abbreviations. rewrite !abbreviations_loop_existsb.
  induction abbreviations as [|q t IH]; simpl; [reflexivity|].
  rewrite IH. f_equal. apply orb_comm.
Qed.

Lemma lower_char_idem c : lower_char (lower_char c) = lower_char c.
Proof.
  destruct c as [b0 b1 b2 b3 b4 b5 b6 b7].
  destruct b0, b1, b2, b3, b4, b5, b6, b7; vm_compute; reflexivity.
Qed.

Lemma lower_idem s : lower (lower s) = lower s.
Proof.
  unfold lower. rewrite list_ascii_of_string_of_list_ascii, map_map.
  f_equal. apply map_ext. apply lower_char_idem.
Qed.

Lemma normalize_lower s : normalize (lower s) = normalize s.
Proof. unfold normalize. rewrite lower_idem. reflexivity. Qed.

Lemma is_empty_map {A B} (f : A -> B) l : is_empty (map f l) = is_empty l.
Proof. destruct l; reflexivity. Qed.

Lemma str_length_append a b : String.length (a +++ b) = String.length a + String.length b.
Proof. induction a as [|c a IH]; simpl; [reflexivity|]. rewrite IH. reflexivity. Qed.

Lemma join_cons_length sep x xs : String.length x <= String.length (join sep (x :: xs)).
Proof.
  unfold join. simpl. destruct xs; [lia|].
  rewrite !str_length_append. lia.
Qed.

Lemma lower_cons c s : lower (String c s) = String (lower_char c) (lower s).
Proof. reflexivity. Qed.

Lemma lower_app a b : lower (a +++ b) = lower a +++ lower b.
Proof.
  induction a as [|c a IH]; [reflexivity|].
  change (String c a +++ b) with (String c (a +++ b)). rewrite !lower_cons, IH. reflexivity.
Qed.

Lemma no_space_of n :
  existsb (Ascii.eqb " "%char) (list_ascii_of_string n) = false ->
  ~ In " "%char (list_ascii_of_string n).
Proof.
  intros H Hin. assert (Hx : existsb (Ascii.eqb " "%char) (list_ascii_of_string n) = true).
  { apply existsb_exists. exists " "%char. split; [exact Hin|apply Ascii.eqb_refl]. }
  congruence.
Qed.

Lemma prefixb_space_app n x y :
  ~ In " "%char (list_ascii_of_string n) ->
  prefixb n (x +++ String " " y) = prefixb n x.
Proof.
  revert x. induction n as [|d n IH]; intros x Hn; [destruct x; reflexivity|].
  destruct x as [|c x].
  - simpl. destruct (Ascii.eqb d _) eqn:E; [|reflexivity].
    apply Ascii.eqb_eq in E. subst. exfalso. apply Hn. left. reflexivity.
  - simpl. rewrite IH; [reflexivity|]. intros H. apply Hn. right. exact H.
Qed.

Lemma contains_nonempty_nil n : n <> "" -> contains n "" = false.
Proof. destruct n; [congruence|reflexivity]. Qed.

(** A needle without blanks occurs in [a ++ " " ++ b] only inside [a]
    or inside [b]. *)
Lemma contains_space_app n a b :
  n <> "" -> ~ In " "%char (list_ascii_of_string n) ->
  contains n (a +++ String " " b) = contains n a || contains n b.
Proof.
  intros Hne Hn. induction a as [|c a IH].
  - change ("" +++ String " " b) with (String " " b).
    change (contains n (String " " b)) with (prefixb n (String " " b) || contains n b).
    pose proof (prefixb_space_app n "" b Hn) as P. simpl in P. rewrite P.
    rewrite contains_nonempty_nil by exact Hne.
    destruct n; [congruence|reflexivity].
  - change (String c a +++ String " " b) with (String c (a +++ String " " b)).
    change (contains n (String c (a +++ String " " b))) with
      (prefixb n (String c (a +++ String " " b)) || contains n (a +++ String " " b)).
    change (contains n (String c a)) with (prefixb n (String c a) || contains n a).
    rewrite IH.
    change (String c (a +++ String " " b)) with (String c a +++ String " " b).
    rewrite prefixb_space_app by exact Hn. apply orb_assoc.
Qed.

Lemma contains_lower_join n R :
  n <> "" -> ~ In " "%char (list_ascii_of_string n) ->
  contains n (lower (join " " R)) = existsb (fun r => contains n (lower r)) R.
Proof.
  intros Hne Hn. induction R as [|r R IH].
  - apply contains_nonempty_nil, Hne.
  - destruct R as [|r' R].
    + change (join " " [r]) with r. cbn [existsb]. rewrite orb_false_r. reflexivity.
    + change (join " " (r :: r' :: R)) with (r +++ String " " (join " " (r' :: R))).
      rewrite lower_app, lower_cons.
      change (lower_char " ") with " "%char.
      rewrite contains_space_app by assumption. rewrite IH. reflexivity.
Qed.

Lemma filter_length_le' {A} (f : A -> bool) l : length (filter f l) <= length l.
Proof. induction l as [|x l IH]; simpl; [lia|]. destruct (f x); simpl; lia. Qed.

Lemma filter_length_mono {A} (f g : A -> bool) l :
  (forall x, f x = true -> g x = true) -> length (filter f l) <= length (filter g l).
Proof.
  intros H. induction l as [|x l IH]; simpl; [lia|].
  destruct (f x) eqn:E; [rewrite (H x E); simpl; lia|]. destruct (g x); simpl; lia.
Qed.

Lemma ratio_mono a b n : (a <= b)%nat -> (ratio a n <= ratio b n)%Q.
Proof.
  intros H. unfold ratio, Qdiv. apply Qmult_le_compat_r.
  - rewrite <- Zle_Qle. lia.
  - apply Qinv_le_0_compat. change 0%Q with (inject_Z 0). rewrite <- Zle_Qle. lia.
Qed.

Lemma is_empty_length {A} (l : list A) : is_empty l = Nat.eqb (length l) 0.
Proof. destruct l; reflexivity. Qed.

Lemma nodup_same_length (a b : list string) :
  NoDup a -> NoDup b -> (forall x, In x a <-> In x b) -> length a = length b.
Proof. intros Ha Hb H. apply Permutation_length, NoDup_Permutation; assumption. Qed.

Lemma in_set_inter w a b : In w (set_inter a b) <-> In w a /\ In w b.
Proof.
  unfold set_inter. rewrite filter_In, existsb_exists.
  split; intros [H1 H2]; split; auto.
  - destruct H2 as [x [Hx Heq]]. apply String.eqb_eq in Heq. subst. exact Hx.
  - exists w. split; [exact H2|]. apply String.eqb_refl.
Qed.

Lemma title_similarity_bounds a b : (0 <= calculate_title_similarity a b <= 1)%Q.
Proof.
  unfold calculate_title_similarity. cbv zeta.
  destruct (_ || _); [lra|]. destruct (is_empty _); [lra|].
  apply ratio_bounds. unfold set_inter.
  eapply Nat.le_trans; [apply filter_length_le'|].
  apply NoDup_incl_length; [apply NoDup_nodup|].
  intros x Hx. unfold set_union. apply nodup_In, in_or_app. left. exact Hx.
Qed.

Lemma count_le skills text : count_skills_in_text skills text <= length skills.
Proof.
  unfold count_skills_in_text. destruct (negb _); [lia|]. cbv zeta.
  rewrite RelevanceFacts.count_fold. pose proof (filter_length_le'
    (fun s => contains (lower s) (lower text)) skills). lia.
Qed.

Lemma gt_num v c q : num v = Some q -> Py.gt v c = inr (negb (Qle_bool q c)).
Proof. intros H. unfold Py.gt. rewrite H. reflexivity. Qed.

Lemma gt_int_5 m : Py.gt (VInt (Z.of_nat m)) 5 = inr (5 <? m).
Proof.
  unfold Py.gt, num. f_equal. unfold Qle_bool. simpl.
  destruct (Z.leb _ _) eqn:E; destruct (Nat.ltb_spec 5 m); try reflexivity.
  - apply Z.leb_le in E. lia.
  - apply Z.leb_gt in E. lia.
Qed.

Lemma strengths_shape e sa v q m :
  dict_get sa "match_score" = Some v -> num v = Some q ->
  dict_get sa "total_matched" = Some (VInt (Z.of_nat m)) ->
  identify_strengths e sa =
  inr ((if negb (Qle_bool q (7 # 10)) then ["Strong technical skills alignment"] else []) ++
       (if 5 <? m then ["Extensive relevant experience"] else []) ++
       (if 2 <? length (experience e) then ["Proven track record"] else []) ++
       (if negb (is_empty (education e)) then ["Strong educational background"] else [])).
Proof.
  intros Hv Hq Hm. unfold identify_strengths, getitem. rewrite Hv.
  cbv [Py.bind]. cbv beta iota. rewrite (gt_num _ _ _ Hq). cbv beta iota.
  rewrite Hm. cbv beta iota. rewrite gt_int_5. reflexivity.
Qed.

Lemma in_strengths_extensive (b1 b3 b4 : bool) n :
  @In string "Extensive relevant experience"
    ((if b1 then ["Strong technical skills alignment"] else []) ++
     (if 5 <? n then ["Extensive relevant experience"] else []) ++
     (if b3 then ["Proven track record"] else []) ++
     (if b4 then ["Strong educational background"] else [])) <-> 6 <= n.
Proof.
  rewrite !in_app_iff.
  destruct (Nat.ltb_spec 5 n) as [Hn|Hn]; split; intros Hi; try lia.
  - right. left. left. reflexivity.
  - exfalso. destruct b1, b3, b4;
      repeat match goal with
             | H : _ \/ _ |- _ => destruct H as [H|H]
             | H : In _ [] |- _ => destruct H
             | H : In _ [_] |- _ => destruct H as [H|H]
             | H : _ = _ |- _ => discriminate H
             | H : False |- _ => destruct H
             end.
Qed.

(** [generate_personalized_content] returns only when both the
    candidate's skills and the requirements are non-empty. *)
Lemma synthesize_inr_nonempty e ja h p :
  fst (generate_personalized_content e ja h) = inr p ->
  skills e <> [] /\ get_default (key_requirements ja) [] <> [].
Proof.
  intros Hp.
  assert (Hc : ~ (skills e = [] \/ get_default (key_requirements ja) [] = [])).
  { intros H. unfold generate_personalized_content in Hp. rewrite analyze_empty in Hp by exact H.
    destruct (find_relevant_experience e _ _ h) as [rel h1]. simpl in Hp. discriminate Hp. }
  split; intros E; apply Hc; auto.
Qed.

Lemma prefixb_app a b : prefixb a (a +++ b) = true.
Proof. induction a as [|c a IH]; simpl; [reflexivity|]. rewrite Ascii.eqb_refl. exact IH. Qed.

Lemma str_append_nil a : a +++ "" = a.
Proof. induction a as [|c a IH]; simpl; [reflexivity|]. rewrite IH. reflexivity. Qed.

Lemma str_append_assoc a b c : (a +++ b) +++ c = a +++ (b +++ c).
Proof. induction a as [|x a IH]; simpl; [reflexivity|]. rewrite IH. reflexivity. Qed.

Lemma join_cons_app sep x xs : exists r, join sep (x :: xs) = x +++ r.
Proof.
  destruct xs as [|y ys].
  - exists "". rewrite str_append_nil. reflexivity.
  - eexists. reflexivity.
Qed.

Lemma ratio_zero n : (ratio 0 n == 0)%Q.
Proof. unfold ratio, Qdiv. apply Qmult_0_l. Qed.

Lemma title_disjoint_zero jt t :
  (forall w, In w (split (lower t)) -> ~ In w (split (lower jt))) ->
  (calculate_title_similarity jt t == 0)%Q.
Proof.
  intros H. unfold calculate_title_similarity. cbv zeta.
  destruct (_ || _); [reflexivity|]. destruct (is_empty _); [reflexivity|].
  destruct (set_inter (set_of (split (lower jt))) (set_of (split (lower t)))) as [|w ws] eqn:E.
  - apply ratio_zero.
  - exfalso. assert (Hw : In w (set_inter (set_of (split (lower jt))) (set_of (split (lower t)))))
      by (rewrite E; left; reflexivity).
    apply in_set_inter in Hw as [Hj Ht]. unfold set_of in Hj, Ht.
    apply nodup_In in Hj, Ht. exact (H w Ht Hj).
Qed.

Lemma count_none req s :
  (forall r, In r req -> contains (lower r) (lower s) = false) ->
  count_skills_in_text req s = 0.
Proof.
  intros H. unfold count_skills_in_text. destruct (negb _); [reflexivity|]. cbv zeta.
  rewrite RelevanceFacts.count_fold.
  rewrite (filter_ext_in _ (fun _ => false)) by (intros r Hr; apply H, Hr).
  rewrite filter_false. reflexivity.
Qed.

(** *** Similarity *)

(** X1.  [_calculate_similarity] is symmetric. *)
Theorem calculate_similarity_comm a b :
  calculate_similarity a b = calculate_similarity b a.
Proof.
  unfold calculate_similarity. rewrite String.eqb_sym, are_abbreviations_comm.
  rewrite (orb_comm (contains a b)). reflexivity.
Qed.

(** X2.  In [analyze_skills_match] a requirement is matched by a
    candidate skill exactly when one contains the other or the pair is
    in the abbreviation table: the similarity threshold 0.7 adds only
    the abbreviation pairs to the substring test. *)
Theorem match_criterion j cvs :
  search_cv j cvs =
  existsb (fun cv => contains j cv || contains cv j || are_abbreviations j cv) cvs.
Proof.
  rewrite search_cv_existsb. induction cvs as [|cv cvs IH]; simpl; [reflexivity|].
  rewrite IH. f_equal. unfold calculate_similarity.
  destruct (String.eqb j cv) eqn:E.
  - apply String.eqb_eq in E. subst. rewrite contains_refl. reflexivity.
  - destruct (contains j cv || contains cv j); [reflexivity|].
    destruct (are_abbreviations j cv); reflexivity.
Qed.

(** X3.  A candidate skill that is blank after normalization (such as
    ["  "]) matches every requirement, since [""] is a substring of every
    string: the match score is then 1 and nothing is missing. *)
Theorem blank_skill_matches_all e R s :
  R <> [] -> In s (skills e) -> normalize s = "" ->
  dict_get (analyze_skills_match e R) "missing_skills" = Some (VStrList []) /\
  dict_get (analyze_skills_match e R) "match_score" =
    Some (VFloat (ratio (length R) (length R))).
Proof.
  intros HR Hs Hn.
  assert (HS : skills e <> []) by (intros E; rewrite E in Hs; destruct Hs).
  rewrite analyze_nonempty by assumption.
  assert (Hp : forall j, search_cv j (map normalize (skills e)) = true).
  { intros j. rewrite search_cv_existsb. apply existsb_exists.
    exists (normalize s). split; [apply in_map, Hs|].
    rewrite Hn, contains_empty_l, orb_true_r. reflexivity. }
  rewrite (filter_ext _ (fun _ => true) Hp), filter_true, length_map.
  rewrite (filter_ext (fun j => negb (search_cv j (map normalize (skills e))))
                      (fun _ => false)) by (intros j; rewrite Hp; reflexivity).
  rewrite filter_false. split; reflexivity.
Qed.

Lemma blank_skill_matches_all_witness :
  ["Python"] <> [] /\ In "  " ["  "; "Go"] /\ normalize "  " = "" /\
  dict_get (analyze_skills_match (mkEngine [] [] ["  "; "Go"] []) ["Python"])
    "missing_skills" = Some (VStrList []).
Proof.
  assert (H1 : ["Python"] <> []) by discriminate.
  assert (H2 : In "  " ["  "; "Go"]) by (left; reflexivity).
  assert (H3 : normalize "  " = "") by reflexivity.
  split; [exact H1|]. split; [exact H2|]. split; [exact H3|].
  exact (proj1 (blank_skill_matches_all (mkEngine [] [] ["  "; "Go"] []) ["Python"] "  "
                  H1 H2 H3)).
Defined.

(** X4.  [analyze_skills_match] is case-insensitive: lower-casing every
    candidate skill and every requirement does not change its result. *)
Theorem analyze_lower_invariant e R :
  analyze_skills_match (mkEngine (personal_info e) (experience e)
                          (map lower (skills e)) (education e)) (map lower R) =
  analyze_skills_match e R.
Proof.
  unfold analyze_skills_match. simpl skills.
  rewrite !is_empty_map, !map_map.
  assert (Hm : forall l, map (fun x => normalize (lower x)) l = map normalize l)
    by (intros l; apply map_ext, normalize_lower).
  rewrite !Hm. reflexivity.
Qed.

(** *** Candidate summary *)

(** X5.  [get_candidate_summary] is just ["."] exactly when the profile
    has no (non-empty) name, no experience, no skills and no education;
    any present segment makes it longer. *)
Theorem summary_empty_iff e :
  get_candidate_summary e = "." <->
  (forall n, dict_get (personal_info e) "name" = Some (VStr n) -> n = "") /\
  experience e = [] /\ skills e = [] /\ education e = [].
Proof.
  unfold get_candidate_summary. split.
  - intros H.
    match type of H with join " " ?parts +++ "." = "." => remember parts as ps eqn:Ep end.
    assert (Hparts : ps = []).
    { destruct ps as [|x xs]; [reflexivity|]. exfalso.
      assert (Hx : 1 <= String.length x).
      { assert (Hin : In x (x :: xs)) by (left; reflexivity). rewrite Ep in Hin.
        repeat (apply in_app_or in Hin; destruct Hin as [Hin|Hin]);
          repeat match type of Hin with
                 | In _ (match ?m with _ => _ end) => destruct m
                 | In _ (if ?b then _ else _) => destruct b
                 end;
          simpl in Hin; try contradiction;
          destruct Hin as [<-|[]]; simpl; lia. }
      apply (f_equal String.length) in H. rewrite str_length_append in H.
      pose proof (join_cons_length " " x xs). lia. }
    rewrite Hparts in Ep. symmetry in Ep.
    apply app_eq_nil in Ep as [Hn Ep]. apply app_eq_nil in Ep as [Hx Ep].
    apply app_eq_nil in Ep as [Hs Hd].
    split.
    { intros n Hget. rewrite Hget in Hn. destruct n; [reflexivity|discriminate]. }
    split; [destruct (experience e); [reflexivity|discriminate]|].
    split; [destruct (skills e); [reflexivity|discriminate]|].
    destruct (education e); [reflexivity|discriminate].
  - intros [Hn [Hx [Hs Hd]]]. rewrite Hx, Hs, Hd.
    destruct (dict_get (personal_info e) "name") as [[| |n|]|]; try reflexivity.
    rewrite (Hn n eq_refl). reflexivity.
Qed.

(** X6.  The skills analysis only grows with the candidate's skills:
    with more candidate skills, every requirement matched before is still
    matched and the match score does not drop. *)
Theorem analyze_monotone e e' R :
  skills e <> [] -> incl (skills e) (skills e') -> R <> [] ->
  exists m m',
    dict_get (analyze_skills_match e R) "matched_skills" = Some (VStrList m) /\
    dict_get (analyze_skills_match e' R) "matched_skills" = Some (VStrList m') /\
    incl m m' /\
    exists q q',
      dict_get (analyze_skills_match e R) "match_score" = Some (VFloat q) /\
      dict_get (analyze_skills_match e' R) "match_score" = Some (VFloat q') /\
      (q <= q')%Q.
Proof.
  intros HS Hincl HR.
  assert (HS' : skills e' <> []).
  { destruct (skills e) as [|s S] eqn:E; [congruence|]. intros E'.
    specialize (Hincl s (or_introl eq_refl)). rewrite E' in Hincl. exact Hincl. }
  assert (Himp : forall j, search_cv j (map normalize (skills e)) = true ->
                           search_cv j (map normalize (skills e')) = true).
  { intros j. rewrite !search_cv_existsb, !existsb_exists. intros [cv [Hcv Hf]].
    exists cv. split; [|exact Hf]. apply in_map_iff in Hcv as [s [<- Hs]].
    apply in_map, Hincl, Hs. }
  rewrite (analyze_nonempty e R HS HR), (analyze_nonempty e' R HS' HR).
  eexists _, _. split; [reflexivity|]. split; [reflexivity|]. split.
  - intros j Hj. apply filter_In in Hj as [Hin Hp]. apply filter_In. auto.
  - eexists _, _. split; [reflexivity|]. split; [reflexivity|].
    apply ratio_mono, filter_length_mono, Himp.
Qed.

Lemma analyze_monotone_witness :
  ["Python"] <> [] /\ incl ["Python"] ["Python"; "Go"] /\ ["python"; "go"] <> [] /\
  exists m m',
    dict_get (analyze_skills_match (mkEngine [] [] ["Python"] []) ["python"; "go"])
      "matched_skills" = Some (VStrList m) /\
    dict_get (analyze_skills_match (mkEngine [] [] ["Python"; "Go"] []) ["python"; "go"])
      "matched_skills" = Some (VStrList m') /\
    incl m m'.
Proof.
  assert (H1 : ["Python"] <> []) by discriminate.
  assert (H2 : incl ["Python"] ["Python"; "Go"]) by (intros x [<-|[]]; left; reflexivity).
  assert (H3 : ["python"; "go"] <> []) by discriminate.
  split; [exact H1|]. split; [exact H2|]. split; [exact H3|].
  destruct (analyze_monotone (mkEngine [] [] ["Python"] []) (mkEngine [] [] ["Python"; "Go"] [])
              ["python"; "go"] H1 H2 H3) as [m [m' [Hm [Hm' [Hi _]]]]].
  exists m, m'. split; [exact Hm|]. split; [exact Hm'|]. exact Hi.
Defined.

(** X14.  When [personal_info] has a non-empty [name], the candidate
    summary starts with ["I am "] followed by that name. *)
Theorem summary_name_first e n :
  dict_get (personal_info e) "name" = Some (VStr n) -> n <> "" ->
  prefixb ("I am " +++ n) (get_candidate_summary e) = true.
Proof.
  intros Hn Hne. unfold get_candidate_summary. cbv zeta. rewrite Hn.
  destruct n as [|c n]; [congruence|]. cbn [str_truthy app].
  match goal with |- context [join " " (?x :: ?xs)] =>
    destruct (join_cons_app " " x xs) as [r ->] end.
  rewrite str_append_assoc. apply prefixb_app.
Qed.

Lemma summary_name_first_witness :
  dict_get (personal_info (mkEngine [("name", VStr "Ada")] [] ["Rust"] [])) "name" =
    Some (VStr "Ada") /\ "Ada" <> "" /\
  prefixb ("I am " +++ "Ada") (get_candidate_summary (mkEngine [("name", VStr "Ada")] [] ["Rust"] [])) = true.
Proof.
  assert (H1 : dict_get (personal_info (mkEngine [("name", VStr "Ada")] [] ["Rust"] [])) "name" =
                 Some (VStr "Ada")) by reflexivity.
  assert (H2 : "Ada" <> "") by discriminate.
  split; [exact H1|]. split; [exact H2|].
  exact (summary_name_first _ _ H1 H2).
Defined.

(** *** Experience ranking *)

(** X7.  [_calculate_title_similarity] is symmetric in the two titles. *)
Theorem title_similarity_comm a b :
  calculate_title_similarity a b = calculate_title_similarity b a.
Proof.
  unfold calculate_title_similarity. cbv zeta.
  set (A := set_of (split (lower a))). set (B := set_of (split (lower b))).
  assert (NA : NoDup A) by apply NoDup_nodup.
  assert (NB : NoDup B) by apply NoDup_nodup.
  rewrite (orb_comm (is_empty A)).
  destruct (is_empty B || is_empty A); [reflexivity|].
  assert (Hu : length (set_union A B) = length (set_union B A)).
  { apply nodup_same_length; try apply NoDup_nodup.
    intros x. unfold set_union. rewrite !nodup_In, !in_app_iff. tauto. }
  assert (Hi : length (set_inter A B) = length (set_inter B A)).
  { apply nodup_same_length; try (apply NoDup_filter; assumption).
    intros x. rewrite !in_set_inter. tauto. }
  rewrite !(is_empty_length (set_union _ _)), Hu, Hi. reflexivity.
Qed.

(** X8.  The relevance score [find_relevant_experience] computes for an
    entry always lies in [0, 1]: the title part is at most 0.4 and the
    skills part at most 0.6. *)
Theorem relevance_bounds jt req d : (0 <= exp_relevance jt req d <= 1)%Q.
Proof.
  unfold exp_relevance. cbv zeta.
  set (X := match get_str_field d "title" with
            | Some t => if str_truthy jt && str_truthy t
                        then (0 + calculate_title_similarity jt t * (4 # 10))%Q else 0%Q
            | None => 0%Q end).
  assert (HX : (0 <= X <= 4 # 10)%Q).
  { subst X. destruct (get_str_field d "title") as [t|]; [destruct (_ && _)|]; try lra.
    pose proof (title_similarity_bounds jt t). lra. }
  destruct (get_str_field d "description") as [s|]; [destruct (_ && _)|]; try lra.
  pose proof (ratio_bounds _ _ (count_le req s)). lra.
Qed.

(** X13.  An experience entry whose title shares no word with the job
    title and whose description contains none of the required skills
    (both compared case-insensitively) scores 0, and
    [find_relevant_experience] never returns a copy of it: every returned
    entry is the scored copy of another entry of the experience list. *)
Theorem no_overlap_excluded e jt req h l0 :
  (forall l, In l (experience e) -> l < length h) ->
  (forall t, get_str_field (heap_get h l0) "title" = Some t ->
     forall w, In w (split (lower t)) -> ~ In w (split (lower jt))) ->
  (forall s, get_str_field (heap_get h l0) "description" = Some s ->
     forall r, In r req -> contains (lower r) (lower s) = false) ->
  (exp_relevance jt req (heap_get h l0) == 0)%Q /\
  forall l, In l (fst (find_relevant_experience e jt req h)) ->
    exists l1, In l1 (experience e) /\ l1 <> l0 /\
      heap_get (snd (find_relevant_experience e jt req h)) l =
      dict_set (heap_get h l1) "relevance_score"
        (VFloat (exp_relevance jt req (heap_get h l1))).
Proof.
  intros Hin HT HD.
  assert (Hz : (exp_relevance jt req (heap_get h l0) == 0)%Q).
  { unfold exp_relevance. cbv zeta.
    destruct (get_str_field (heap_get h l0) "title") as [t|] eqn:Et;
      [pose proof (title_disjoint_zero jt t (HT t eq_refl)); destruct (_ && _)|];
      (destruct (get_str_field (heap_get h l0) "description") as [s|] eqn:Es;
       [rewrite (count_none req s (HD s eq_refl)); pose proof (ratio_zero (length req));
        destruct (_ && _)|]);
      lra. }
  split; [exact Hz|].
  intros l Hl. destruct (in_find_result e jt req h l Hin Hl) as [i [Hi ->]].
  destruct (source_in e jt req h i Hi) as [Hsrc Hrel].
  exists (nth i (relevant_sources e jt req h) 0). split; [exact Hsrc|]. split.
  - intros Heq. rewrite Heq in Hrel. unfold is_relevant in Hrel.
    apply relevant_gt in Hrel. lra.
  - pose proof (find_relevant_shape e jt req h Hin) as Hsh. cbv zeta in Hsh.
    rewrite Hsh. cbn [snd]. rewrite heap_get_copy by exact Hi. reflexivity.
Qed.

Lemma no_overlap_excluded_witness :
  let h := [[("title", VStr "Chef"); ("description", VStr "Cooking for events")];
            [("title", VStr "Software Engineer"); ("description", VStr "Python services")]] in
  (forall l, In l [0; 1] -> l < length h) /\
  (forall t, get_str_field (heap_get h 0) "title" = Some t ->
     forall w, In w (split (lower t)) -> ~ In w (split (lower "Software Engineer"))) /\
  (forall s, get_str_field (heap_get h 0) "description" = Some s ->
     forall r, In r ["Python"] -> contains (lower r) (lower s) = false) /\
  (exp_relevance "Software Engineer" ["Python"] (heap_get h 0%nat) == 0)%Q.
Proof.
  intros h.
  assert (H1 : forall l, In l [0; 1] -> l < length h).
  { intros l [<-|[<-|[]]]; simpl; lia. }
  assert (H2 : forall t, get_str_field (heap_get h 0) "title" = Some t ->
     forall w, In w (split (lower t)) -> ~ In w (split (lower "Software Engineer"))).
  { intros t Ht w Hw. injection Ht as <-. vm_compute in Hw.
    destruct Hw as [<-|[]]. vm_compute. intros [E|[E|[]]]; discriminate E. }
  assert (H3 : forall s, get_str_field (heap_get h 0) "description" = Some s ->
     forall r, In r ["Python"] -> contains (lower r) (lower s) = false).
  { intros s Hs r Hr. injection Hs as <-. destruct Hr as [<-|[]]. vm_compute. reflexivity. }
  split; [exact H1|]. split; [exact H2|]. split; [exact H3|].
  exact (proj1 (no_overlap_excluded (mkEngine [] [0; 1] [] []) "Software Engineer" ["Python"]
                  h 0 H1 H2 H3)).
Defined.

(** *** Emphasis areas *)

(** X9.  [_identify_emphasis_areas] searches the requirements joined by
    blanks, but since none of its keywords contains a blank this is the
    same as asking, for each keyword, whether some single requirement
    contains it, case-insensitively. *)
Theorem emphasis_per_requirement ja :
  let R := get_default (key_requirements ja) [] in
  let hit kw := existsb (fun r => contains kw (lower r)) R in
  identify_emphasis_areas ja =
  (if hit "communication" then ["Communication and collaboration skills"] else []) ++
  (if hit "leadership" || hit "management"
   then ["Leadership and project management experience"] else []) ++
  (if hit "agile" || hit "scrum" then ["Agile methodology experience"] else []).
Proof.
  intros R hit. unfold identify_emphasis_areas. cbv zeta. cbn [existsb].
  rewrite !contains_lower_join by (discriminate || (apply no_space_of; reflexivity)).
  rewrite !orb_false_r. reflexivity.
Qed.

(** X10.  The emphasis areas do not depend on the order of the
    requirements. *)
Theorem emphasis_perm_invariant ja ja' :
  Permutation (get_default (key_requirements ja) []) (get_default (key_requirements ja') []) ->
  identify_emphasis_areas ja = identify_emphasis_areas ja'.
Proof.
  intros P. unfold identify_emphasis_areas. cbv zeta. cbn [existsb].
  rewrite !contains_lower_join by (discriminate || (apply no_space_of; reflexivity)).
  rewrite !(fun f => existsb_perm f _ _ P). reflexivity.
Qed.

Lemma emphasis_perm_invariant_witness :
  Permutation (get_default (key_requirements (mkJob None None (Some ["Scrum"; "Team leadership"]) None)) [])
              (get_default (key_requirements (mkJob None None (Some ["Team leadership"; "Scrum"]) None)) []) /\
  identify_emphasis_areas (mkJob None None (Some ["Scrum"; "Team leadership"]) None) =
  identify_emphasis_areas (mkJob None None (Some ["Team leadership"; "Scrum"]) None).
Proof.
  assert (P : Permutation (get_default (key_requirements (mkJob None None (Some ["Scrum"; "Team leadership"]) None)) [])
                          (get_default (key_requirements (mkJob None None (Some ["Team leadership"; "Scrum"]) None)) []))
    by (simpl; apply perm_swap).
  split; [exact P|]. exact (emphasis_perm_invariant _ _ P).
Defined.

(** *** Content generation *)

(** X11.  [generate_personalized_content] returns a result exactly when
    both the candidate's skills and the job's requirements are
    non-empty; otherwise it raises. *)
Theorem synthesize_succeeds_iff e ja h :
  (exists p, fst (generate_personalized_content e ja h) = inr p) <->
  skills e <> [] /\ get_default (key_requirements ja) [] <> [].
Proof.
  split.
  - intros [p Hp]. exact (synthesize_inr_nonempty e ja h p Hp).
  - intros [HS HR]. unfold generate_personalized_content.
    rewrite analyze_nonempty by assumption.
    destruct (find_relevant_experience e _ _ h) as [rel h1].
    erewrite talking_points_shape by reflexivity.
    eexists. reflexivity.
Qed.

(** X12.  In a generated result, "Extensive relevant experience" is among
    the strengths exactly when at least six requirements were matched. *)
Theorem extensive_experience_iff e ja h p :
  fst (generate_personalized_content e ja h) = inr p ->
  exists m, dict_get (skills_match p) "matched_skills" = Some (VStrList m) /\
    (In "Extensive relevant experience" (strengths_to_highlight p) <-> 6 <= length m).
Proof.
  intros Hp. destruct (synthesize_inr_nonempty e ja h p Hp) as [HS HR].
  unfold generate_personalized_content in Hp.
  rewrite analyze_nonempty in Hp by assumption.
  destruct (find_relevant_experience e _ _ h) as [rel h1].
  erewrite talking_points_shape in Hp by reflexivity.
  erewrite strengths_shape in Hp by reflexivity.
  cbv [Py.bind Py.ret fst] in Hp. injection Hp as <-. cbn [skills_match strengths_to_highlight].
  eexists. split; [reflexivity|]. apply in_strengths_extensive.
Qed.

Lemma extensive_experience_iff_witness :
  exists p,
    fst (generate_personalized_content (mkEngine [] [] ["Python"] [])
           (mkJob None None (Some ["python"]) None) []) = inr p /\
    exists m, dict_get (skills_match p) "matched_skills" = Some (VStrList m) /\
      (In "Extensive relevant experience" (strengths_to_highlight p) <-> 6 <= length m).
Proof.
  eexists. split; [reflexivity|].
  apply (extensive_experience_iff (mkEngine [] [] ["Python"] [])
           (mkJob None None (Some ["python"]) None) []).
  reflexivity.
Defined.

End Extras.
